(** * Recommendation scoring of the RARE backend (src/main.py)

    A shallow embedding of the catalog and of the two catalog endpoints,
    [list_solutions] and [recommend], with the properties of the scoring and
    ranking they implement.

    Python values are modelled as follows.
    - [str] is a sequence of Unicode code points: [pystr := list N].
    - [int] is unbounded: [Z].
    - [set] of strings is stdpp's [gset pystr]; iteration goes through
      [elements], and the score is shown not to depend on the order.
    - [Optional[str]] is [option pystr].
    - the module-level [CATALOG] list lives in a [store] threaded through
      the handlers, so that "does not mutate" is a statement and not a
      convention.
    - [str.lower] is a library function with Unicode tables that are not
      part of the program: it is a parameter, [str_lower]. *)

From Stdlib Require Import ZArith NArith List String Ascii Lia.
From stdpp Require Import base decidable option list sorting gmap sets.

Local Open Scope Z_scope.

(** ** Python strings *)

Definition pystr := list N.

(** A string literal made of ASCII characters only. *)
Definition u (s : String.string) : pystr :=
  map N_of_ascii (list_ascii_of_string s).

(** Truth value of a [str]: the empty string is falsy. *)
Definition str_truthy (s : pystr) : bool :=
  match s with [] => false | _ :: _ => true end.

(** [str.isspace] on one code point: general category Zs, or bidirectional
    class WS, B or S. *)
Definition is_space (c : N) : bool :=
  ((9 <=? c) && (c <=? 13) || (28 <=? c) && (c <=? 32)
   || (c =? 133) || (c =? 160) || (c =? 5760)
   || (8192 <=? c) && (c <=? 8202)
   || (c =? 8232) || (c =? 8233) || (c =? 8239) || (c =? 8287)
   || (c =? 12288))%N.

(** [s.split()] without argument: the maximal runs of non-space code points.
    [cur] is the run being read, most recent code point first. *)
Definition flush (cur : pystr) : list pystr :=
  match cur with [] => [] | _ :: _ => [rev cur] end.

Fixpoint split_from (cur : pystr) (s : pystr) : list pystr :=
  match s with
  | [] => flush cur
  | c :: s' =>
      if is_space c then flush cur ++ split_from [] s'
      else split_from (c :: cur) s'
  end.

Definition str_split (s : pystr) : list pystr := split_from [] s.

(** [kw in s] for two strings: [kw] occurs in [s] as a contiguous run. *)
Fixpoint starts_with (s kw : pystr) {struct kw} : bool :=
  match kw, s with
  | [], _ => true
  | _ :: _, [] => false
  | a :: kw', b :: s' => (a =? b)%N && starts_with s' kw'
  end.

Fixpoint str_in (kw s : pystr) : bool :=
  starts_with s kw
  || match s with [] => false | _ :: s' => str_in kw s' end.

(** The code points of the catalog texts: the Basic Latin block, U+00E0
    (a with grave) and U+2192 (rightwards arrow). *)
Definition plain_cp (c : N) : bool :=
  ((c <? 128) || (c =? 224) || (c =? 8594))%N.

Definition plain_str (s : pystr) : bool := forallb plain_cp s.

(** [str.lower] on such a string works code point by code point: A-Z go to
    a-z, and neither U+00E0 nor U+2192 has a lowercase mapping. *)
Definition lower_cp (c : N) : N :=
  if ((65 <=? c) && (c <=? 90))%N then (c + 32)%N else c.

Definition plain_lower (s : pystr) : pystr := map lower_cp s.

(** What is assumed of [str.lower]: on plain strings it is [plain_lower]. *)
Definition lower_on_plain (lower : pystr -> pystr) : Prop :=
  forall s, plain_str s = true -> lower s = plain_lower s.

(** [kw] occurs in [s]: the meaning of "substring". *)
Definition substring (kw s : pystr) : Prop :=
  exists pre post, s = pre ++ kw ++ post.

(** ** Data model *)

Record Solution := mkSolution {
  id : pystr;
  title : pystr;
  category : pystr;
  description : pystr;
  impact : pystr;
  tools : list pystr;
  complexity : pystr;
}.

Record RecommendRequest := mkRequest {
  industry : option pystr;
  team_size : option pystr;
  goals : list pystr;
  processes : list pystr;
}.

#[global] Instance Solution_eq_dec : EqDecision Solution.
Proof. solve_decision. Defined.

Definition lead_capture_crm : Solution := {|
  id := u "lead-capture-crm";
  title := u "Acquisizione lead " ++ [8594%N] ++ u " CRM";
  category := u "Vendite";
  description := u "Raccogli i lead da form e landing e inseriscili automaticamente nel CRM con deduplicazione e arricchimento dati.";
  impact := u "Riduce tempi manuali e migliora la qualit" ++ [224%N] ++ u " dei dati";
  tools := [u "Webhooks"; u "Zapier/Make"; u "HubSpot/Pipedrive"];
  complexity := u "Low";
|}.

Definition invoice_automation : Solution := {|
  id := u "invoice-automation";
  title := u "Fatturazione automatica";
  category := u "Finance";
  description := u "Genera fatture dai contratti/ordini, inviale e registra i pagamenti con riconciliazione.";
  impact := u "Riduce errori e velocizza il cash-flow";
  tools := [u "ERP/Conta"; u "Stripe"; u "Zapier"];
  complexity := u "Medium";
|}.

Definition marketing_drip : Solution := {|
  id := u "marketing-drip";
  title := u "Email drip marketing";
  category := u "Marketing";
  description := u "Sequenze email automatiche basate su comportamento utente e segmenti.";
  impact := u "Aumenta conversioni e LTV";
  tools := [u "Mailchimp/Customer.io"; u "Segment"; u "Webhook"];
  complexity := u "Low";
|}.

Definition support_triage : Solution := {|
  id := u "support-triage";
  title := u "Smistamento ticket con AI";
  category := u "Supporto";
  description := u "Classifica automaticamente i ticket per priorit" ++ [224%N] ++ u ", lingua e argomento, assegnandoli al team giusto.";
  impact := u "Riduce i tempi di risposta";
  tools := [u "Helpdesk"; u "AI classifier"; u "Webhook"];
  complexity := u "Medium";
|}.

Definition ops_dashboard : Solution := {|
  id := u "ops-dashboard";
  title := u "Dashboard operativa live";
  category := u "Operazioni";
  description := u "Unifica dati da CRM, supporto e fatturazione in un'unica dashboard con KPI aggiornati.";
  impact := u "Migliora visibilit" ++ [224%N] ++ u " e decisioni";
  tools := [u "BigQuery"; u "Metabase/Looker"; u "ETL"];
  complexity := u "High";
|}.

Definition CATALOG : list Solution :=
  [lead_capture_crm; invoice_automation; marketing_drip; support_triage;
   ops_dashboard].

(** ** Python values where the code relies on dynamic typing *)

Inductive pyval :=
  | PyNone
  | PyStr (s : pystr).

Definition of_optional (o : option pystr) : pyval :=
  match o with None => PyNone | Some s => PyStr s end.

Definition truthy (v : pyval) : bool :=
  match v with PyNone => false | PyStr s => str_truthy s end.

(** [a or b] *)
Definition py_or (a b : pyval) : pyval := if truthy a then a else b.

Inductive exn := AttributeError.

Inductive result (A : Type) :=
  | Ok (a : A)
  | Raise (e : exn).
Arguments Ok {A} a.
Arguments Raise {A} e.

(** ** The process state and the handler monad *)

Record store := mkStore { catalog : list Solution }.

Definition initial_store : store := {| catalog := CATALOG |}.

Definition handler (A : Type) : Type := store -> result A * store.

Definition ret {A} (a : A) : handler A := fun st => (Ok a, st).

Definition bind {A B} (m : handler A) (k : A -> handler B) : handler B :=
  fun st =>
    match m st with
    | (Ok a, st') => k a st'
    | (Raise e, st') => (Raise e, st')
    end.

Definition lift {A} (r : result A) : handler A := fun st => (r, st).

(** Reading the global [CATALOG]. *)
Definition read_catalog : handler (list Solution) :=
  fun st => (Ok (catalog st), st).

Notation "x <- m ;; k" := (bind m (fun x => k))
  (at level 100, m at next level, right associativity).

(** ** [sorted(xs, key=f, reverse=True)]

    Python's sort is stable, and stays so with [reverse=True]: elements with
    equal keys keep the order they had in [xs].  The model is the insertion
    sort with that result. *)

Section Sorted.
Context {A : Type} (key : A -> Z).

Fixpoint insert_desc (x : A) (l : list A) : list A :=
  match l with
  | [] => [x]
  | y :: l' => if key x <? key y then y :: insert_desc x l' else x :: l
  end.

Definition sorted_desc (l : list A) : list A := foldr insert_desc [] l.
End Sorted.

(** [a] occurs in [l] at an earlier position than [b]. *)
Inductive precedes {A : Type} (a b : A) : list A -> Prop :=
  | precedes_here l : b ∈ l -> precedes a b (a :: l)
  | precedes_later y l : precedes a b l -> precedes a b (y :: l).

(** The three fields of an entry that [score] reads are plain. *)
Definition plain_solution (sol : Solution) : bool :=
  plain_str (title sol) && plain_str (category sol)
  && plain_str (description sol).

(** Every text of an entry except [impact]. *)
Definition fields_but_impact (sol : Solution) : list pystr :=
  id sol :: title sol :: category sol :: description sol :: complexity sol
    :: tools sol.

(** ** Requests of the scenarios *)

Definition empty_request : RecommendRequest :=
  {| industry := None; team_size := None; goals := []; processes := [] |}.

Definition reduce_errors_request : RecommendRequest :=
  {| industry := None; team_size := None;
     goals := [u "reduce_errors"]; processes := [] |}.

Definition save_time_lead_request : RecommendRequest :=
  {| industry := None; team_size := None;
     goals := [u "save_time"]; processes := [u "lead_intake"] |}.

(** A request with values outside every vocabulary. *)
Definition odd_request : RecommendRequest :=
  {| industry := Some (u "   "); team_size := Some (u "galactic");
     goals := [u ""; u "world_peace"]; processes := [u "zzz"; u ""] |}.

Definition retail_request : RecommendRequest :=
  {| industry := Some (u "Retail CRM  lead"); team_size := Some (u "medium");
     goals := [u "lead"; u "save_time"]; processes := [u ""; u "email"] |}.

(** A request with one more process, or one more goal. *)
Definition add_process (kw : pystr) (req : RecommendRequest)
    : RecommendRequest :=
  {| industry := industry req; team_size := team_size req;
     goals := goals req; processes := kw :: processes req |}.

Definition add_goal (kw : pystr) (req : RecommendRequest) : RecommendRequest :=
  {| industry := industry req; team_size := team_size req;
     goals := kw :: goals req; processes := processes req |}.

(** An ASCII capital letter. *)
Definition is_capital (c : N) : bool := ((65 <=? c) && (c <=? 90))%N.

(** ** The diagnostic endpoint [test_database]

    The endpoint reads three things from outside the program: what
    [from database import db] does, what the handle [db] answers, and two
    environment variables.  They are its arguments here.  The response is a
    [dict] from strings to a string, [None] or a list of strings: a
    [gmap pystr dval], each assignment [response[k] = v] an insert.
    Exceptions outside [Exception] are not modelled. *)

Inductive dval :=
  | DNone
  | DStr (s : pystr)
  | DList (l : list pystr).

(** A handle [db] whose attribute [name] can be tested and read: [db_name]
    is [db.name] when [db] has that attribute (a string); [db_collections]
    is what [db.list_collection_names()] does, [inl msg] for an exception
    [e] with [str(e) = msg], [inr names] for a list of names.  A handle for
    which the test or the read raises is [ImportedUnreadable] below. *)
Record database := mkDatabase {
  db_name : option pystr;
  db_collections : pystr + list pystr;
}.

(** An exception that reaches the two outer handlers: an [ImportError], or
    another [Exception] [e] with [str(e) = msg]. *)
Inductive caught :=
  | CaughtImportError
  | CaughtException (msg : pystr).

(** What [from database import db] does: [ImportError]; another exception
    [e] with [str(e) = msg]; or it binds [db], to [None], to a handle whose
    attribute [name] can be tested and read, or, [ImportedUnreadable], to a
    handle for which [hasattr(db, 'name')] or [db.name] raises [e]
    ([hasattr] lets every exception but [AttributeError] through). *)
Inductive import_outcome :=
  | ImportFails
  | ImportRaises (msg : pystr)
  | Imported (db : option database)
  | ImportedUnreadable (e : caught).

(** [os.getenv] of the two variables read. *)
Record environ := mkEnviron {
  DATABASE_URL : option pystr;
  DATABASE_NAME : option pystr;
}.

(** The three symbols of the messages: U+2705, U+274C, and U+26A0 followed
    by U+FE0F. *)
Definition mark_ok : pystr := [9989%N].
Definition mark_no : pystr := [10060%N].
Definition mark_warn : pystr := [9888%N; 65039%N].

Definition test_database (imp : import_outcome) (env : environ)
    : gmap pystr dval :=
  let response : gmap pystr dval :=
    <[u "collections" := DList []]>
    (<[u "connection_status" := DStr (u "Not Connected")]>
    (<[u "database_name" := DNone]>
    (<[u "database_url" := DNone]>
    (<[u "database" := DStr (mark_no ++ u " Not Available")]>
    (<[u "backend" := DStr (mark_ok ++ u " Running")]> ∅))))) in
  let response :=
    match imp with
    | Imported (Some db) =>
        let response :=
          <[u "database" := DStr (mark_ok ++ u " Available")]> response in
        let response :=
          <[u "database_url" := DStr (mark_ok ++ u " Configured")]> response in
        let response :=
          <[u "database_name" :=
              DStr (match db_name db with
                    | Some name => name
                    | None => mark_ok ++ u " Connected"
                    end)]> response in
        let response :=
          <[u "connection_status" := DStr (u "Connected")]> response in
        match db_collections db with
        | inr collections =>
            let response :=
              <[u "collections" := DList (take 10 collections)]> response in
            <[u "database" := DStr (mark_ok ++ u " Connected & Working")]>
              response
        | inl msg =>
            <[u "database" :=
                DStr (mark_warn ++ u "  Connected but Error: " ++ take 50 msg)]>
              response
        end
    | ImportedUnreadable e =>
        let response :=
          <[u "database" := DStr (mark_ok ++ u " Available")]> response in
        let response :=
          <[u "database_url" := DStr (mark_ok ++ u " Configured")]> response in
        match e with
        | CaughtImportError =>
            <[u "database" :=
                DStr (mark_no
                      ++ u " Database module not found (run enable-database first)")]>
              response
        | CaughtException msg =>
            <[u "database" := DStr (mark_no ++ u " Error: " ++ take 50 msg)]>
              response
        end
    | Imported None =>
        <[u "database" :=
            DStr (mark_warn ++ u "  Available but not initialized")]> response
    | ImportFails =>
        <[u "database" :=
            DStr (mark_no
                  ++ u " Database module not found (run enable-database first)")]>
          response
    | ImportRaises msg =>
        <[u "database" := DStr (mark_no ++ u " Error: " ++ take 50 msg)]>
          response
    end in
  let response :=
    <[u "database_url" :=
        DStr (if truthy (of_optional (DATABASE_URL env))
              then mark_ok ++ u " Set" else mark_no ++ u " Not Set")]>
      response in
  let response :=
    <[u "database_name" :=
        DStr (if truthy (of_optional (DATABASE_NAME env))
              then mark_ok ++ u " Set" else mark_no ++ u " Not Set")]>
      response in
  response.

(** ** The endpoints *)

Section Recommender.
Variable str_lower : pystr -> pystr.

(** [v.lower()]: [None] has no such attribute. *)
Definition meth_lower (v : pyval) : result pystr :=
  match v with
  | PyStr s => Ok (str_lower s)
  | PyNone => Raise AttributeError
  end.

(** [s] in [score]. *)
Definition haystack (sol : Solution) : pystr :=
  str_lower (title sol) ++ u " " ++ str_lower (category sol) ++ u " "
    ++ str_lower (description sol).

(** One iteration of [for kw in keywords]. *)
Definition kw_step (s : pystr) (base : Z) (kw : pystr) : Z :=
  if str_truthy kw && str_in kw s then base + 2 else base.

(** The loop, over the keywords in the order the set yields them. *)
Definition kw_loop (s : pystr) (kws : list pystr) (base : Z) : Z :=
  fold_left (kw_step s) kws base.

(** The conditions of the three heuristic bonuses. *)
Definition errors_bonus (req : RecommendRequest) (s : pystr) : bool :=
  bool_decide (u "reduce_errors" ∈ goals req) && str_in (u "error") s.

Definition time_bonus (req : RecommendRequest) (s : pystr) : bool :=
  bool_decide (u "save_time" ∈ goals req) && str_in (u "tempo") s.

Definition low_bonus (req : RecommendRequest) (sol : Solution) : bool :=
  bool_decide (complexity sol = u "Low")
  && bool_decide (team_size req ∈
       ({[ Some (u "solo"); Some (u "small"); None ]} : gset (option pystr))).

(** The body of [score], with the iteration order of the set explicit. *)
Definition score_with (kws : list pystr) (req : RecommendRequest)
    (sol : Solution) : Z :=
  let s := haystack sol in
  let base := 0 in
  let base := kw_loop s kws base in
  let base := if errors_bonus req s then base + 2 else base in
  let base := if time_bonus req s then base + 2 else base in
  let base := if low_bonus req sol then base + 1 else base in
  base.

(** The closure [score]; [keywords] and [req] are its free variables. *)
Definition score (keywords : gset pystr) (req : RecommendRequest)
    (sol : Solution) : Z :=
  score_with (elements keywords) req sol.

(** The three statements that build [keywords]. *)
Definition build_keywords (req : RecommendRequest) : result (gset pystr) :=
  match meth_lower (py_or (of_optional (industry req)) (PyStr [])) with
  | Raise e => Raise e
  | Ok low =>
      let keywords : gset pystr := list_to_set (str_split low) in
      let keywords := keywords ∪ list_to_set (goals req) in
      let keywords := keywords ∪ list_to_set (processes req) in
      Ok keywords
  end.

Definition list_solutions : handler (list Solution) := read_catalog.

Definition recommend (req : RecommendRequest) : handler (list Solution) :=
  keywords <- lift (build_keywords req) ;;
  cat <- read_catalog ;;
  let ranked := sorted_desc (score keywords req) cat in
  ret (take 3 ranked).

(** A client call, and a sequence of calls served one after the other. *)
Inductive call :=
  | ListSolutions
  | Recommend (req : RecommendRequest).

Definition serve (c : call) : handler (list Solution) :=
  match c with
  | ListSolutions => list_solutions
  | Recommend req => recommend req
  end.

Fixpoint serve_all (cs : list call) (st : store)
    : list (result (list Solution)) * store :=
  match cs with
  | [] => ([], st)
  | c :: cs' =>
      let '(r, st') := serve c st in
      let '(rs, st'') := serve_all cs' st' in
      (r :: rs, st'')
  end.

(** The value [build_keywords] computes (lemma [build_keywords_ok]). *)
Definition keywords_of (req : RecommendRequest) : gset pystr :=
  list_to_set (str_split (str_lower (default [] (industry req))))
    ∪ list_to_set (goals req) ∪ list_to_set (processes req).

(** The score the request [req] gives to [sol]. *)
Definition request_score (req : RecommendRequest) (sol : Solution) : Z :=
  score (keywords_of req) req sol.

(** The points of [sol] after the keyword loop, before the bonuses. *)
Definition base_score (req : RecommendRequest) (sol : Solution) : Z :=
  kw_loop (haystack sol) (elements (keywords_of req)) 0.

(** *** The description of section 4.2, steps 1 and 2 *)

(** Step 1: the industry, if present, in lowercase and split at white
    space. *)
Definition industry_tokens (req : RecommendRequest) : list pystr :=
  match industry req with
  | Some s => str_split (str_lower s)
  | None => []
  end.

(** Step 2: the lowercase of title, category and description joined by
    single spaces. *)
Definition lowercase_concatenation (sol : Solution) : pystr :=
  str_lower (title sol ++ u " " ++ category sol ++ u " " ++ description sol).

(** ** Strings *)

Lemma starts_with_spec (kw s : pystr) :
  starts_with s kw = true <-> exists post, s = kw ++ post.
Proof.
  revert s. induction kw as [|a kw IH]; intros s; simpl.
  - split; [intros _; by exists s | done].
  - destruct s as [|b s].
    + split; [done | intros [post Hp]; discriminate Hp].
    + rewrite andb_true_iff, N.eqb_eq, IH. split.
      * intros [-> [post ->]]. by exists post.
      * intros [post Hp]. injection Hp as -> ->. eauto.
Qed.

Lemma str_in_spec (kw s : pystr) : str_in kw s = true <-> substring kw s.
Proof.
  unfold substring. induction s as [|b s IH].
  - simpl. rewrite orb_false_r, starts_with_spec. split.
    + intros [post Hp]. by exists [], post.
    + intros [pre [post Hp]]. destruct pre; [by exists post |].
      discriminate Hp.
  - cbn [str_in]. rewrite orb_true_iff, IH, starts_with_spec. split.
    + intros [[post Hp] | [pre [post Hp]]].
      * by exists [], post.
      * exists (b :: pre), post. by rewrite Hp.
    + intros [pre [post Hp]]. destruct pre as [|c pre].
      * left. by exists post.
      * right. injection Hp as _ Hp. by exists pre, post.
Qed.

Lemma plain_lower_on_plain : lower_on_plain plain_lower.
Proof. intros s _. reflexivity. Qed.

(** ** The stable descending sort *)

Section SortedFacts.
Context {A : Type} (key : A -> Z).

Lemma insert_desc_perm (x : A) (l : list A) :
  insert_desc key x l ≡ₚ x :: l.
Proof.
  induction l as [|y l IH]; simpl; [done |].
  destruct (key x <? key y); [| done].
  rewrite IH. apply Permutation_swap.
Qed.

Lemma sorted_desc_perm (l : list A) : sorted_desc key l ≡ₚ l.
Proof.
  induction l as [|x l IH]; simpl; [done |].
  by rewrite insert_desc_perm, IH.
Qed.

Lemma sorted_desc_length (l : list A) :
  length (sorted_desc key l) = length l.
Proof. apply Permutation_length, sorted_desc_perm. Qed.

Lemma insert_desc_sorted (x : A) (l : list A) :
  StronglySorted (fun a b => key b <= key a) l ->
  StronglySorted (fun a b => key b <= key a) (insert_desc key x l).
Proof.
  induction 1 as [|y l Hl IH Hy]; simpl.
  - repeat constructor.
  - destruct (Z.ltb_spec (key x) (key y)) as [Hlt | Hge].
    + constructor; [done |].
      rewrite insert_desc_perm. constructor; [lia | done].
    + constructor; [by constructor |].
      constructor; [done |].
      eapply Forall_impl; [exact Hy |]. simpl. intros; lia.
Qed.

Lemma sorted_desc_sorted (l : list A) :
  StronglySorted (fun a b => key b <= key a) (sorted_desc key l).
Proof.
  induction l as [|x l IH]; simpl; [constructor |].
  by apply insert_desc_sorted.
Qed.

(** Stability, first form: the entries of any one key are in the order
    of the input. *)
Lemma insert_desc_filter (k : Z) (x : A) (l : list A) :
  filter (fun a => key a = k) (insert_desc key x l)
  = filter (fun a => key a = k) (x :: l).
Proof.
  induction l as [|y l IH]; simpl; [done |].
  destruct (Z.ltb_spec (key x) (key y)) as [Hlt | Hge]; [| done].
  rewrite filter_cons, IH, !filter_cons.
  repeat case_decide; try done; lia.
Qed.

Lemma sorted_desc_filter (k : Z) (l : list A) :
  filter (fun a => key a = k) (sorted_desc key l)
  = filter (fun a => key a = k) l.
Proof.
  induction l as [|x l IH]; simpl; [done |].
  by rewrite insert_desc_filter, !filter_cons, IH.
Qed.

(** Stability, second form: two entries of equal key are never
    exchanged. *)
Lemma precedes_nil (a b : A) : ~ precedes a b [].
Proof. inversion 1. Qed.

Lemma precedes_insert_desc (a b x : A) (l : list A) :
  key a = key b ->
  precedes a b (insert_desc key x l) -> precedes a b (x :: l).
Proof.
  intros Hab. induction l as [|y l IH]; simpl; [done |].
  destruct (Z.ltb_spec (key x) (key y)) as [Hlt | Hge]; [| done].
  inversion 1 as [l' Hb | y' l' Hp]; subst.
  - apply precedes_later.
    rewrite insert_desc_perm in Hb. apply elem_of_cons in Hb as [-> | Hb].
    + lia.
    + by apply precedes_here.
  - specialize (IH Hp). inversion IH as [l' Hb | y' l' Hp']; subst.
    + apply precedes_here. by right.
    + by do 2 apply precedes_later.
Qed.

Lemma precedes_sorted_desc (a b : A) (l : list A) :
  key a = key b -> precedes a b (sorted_desc key l) -> precedes a b l.
Proof.
  intros Hab. induction l as [|x l IH]; simpl; [done |].
  intros Hp. apply precedes_insert_desc in Hp; [| done].
  inversion Hp as [l' Hb | y' l' Hp']; subst.
  - apply precedes_here. by rewrite sorted_desc_perm in Hb.
  - apply precedes_later. auto.
Qed.

Lemma precedes_take (a b : A) (n : nat) (l : list A) :
  precedes a b (take n l) -> precedes a b l.
Proof.
  revert l. induction n as [|n IH]; intros [|y l]; simpl;
    try (by intros ?%precedes_nil).
  inversion 1 as [l' Hb | y' l' Hp]; subst.
  - apply precedes_here. apply elem_of_take in Hb as (i & Hi & _).
    eapply list_elem_of_lookup_2, Hi.
  - apply precedes_later. auto.
Qed.

Lemma precedes_lookup (a b : A) (l : list A) :
  precedes a b l <->
  exists i j, (i < j)%nat /\ l !! i = Some a /\ l !! j = Some b.
Proof.
  split.
  - induction 1 as [l Hb | y l _ (i & j & Hij & Hi & Hj)].
    + apply list_elem_of_lookup in Hb as [j Hj].
      exists 0%nat, (S j). split; [lia | done].
    + exists (S i), (S j). split; [lia | done].
  - intros (i & j & Hij & Hi & Hj). revert i j Hij Hi Hj.
    induction l as [|y l IH]; intros i j Hij Hi Hj; [done |].
    destruct i as [|i].
    + injection Hi as ->. destruct j as [|j]; [lia |].
      apply precedes_here. eapply list_elem_of_lookup_2, Hj.
    + destruct j as [|j]; [lia |].
      apply precedes_later. apply (IH i j); [lia | done | done].
Qed.

Lemma insert_desc_ext (key' : A -> Z) (x : A) (l : list A) :
  key x = key' x -> (forall y, y ∈ l -> key y = key' y) ->
  insert_desc key x l = insert_desc key' x l.
Proof.
  intros Hx. induction l as [|y l IH]; intros Hl; simpl; [done |].
  rewrite <- Hx, <- (Hl y) by (by left).
  rewrite IH by (intros; apply Hl; by right). done.
Qed.

Lemma sorted_desc_ext (key' : A -> Z) (l : list A) :
  (forall x, x ∈ l -> key x = key' x) ->
  sorted_desc key l = sorted_desc key' l.
Proof.
  induction l as [|x l IH]; intros Hk; simpl; [done |].
  rewrite <- IH by (intros; apply Hk; by right).
  apply insert_desc_ext; [apply Hk; by left |].
  intros y Hy. apply Hk. right. by rewrite sorted_desc_perm in Hy.
Qed.
End SortedFacts.

(** ** The keyword loop *)

Lemma kw_loop_count (s : pystr) (kws : list pystr) (base : Z) :
  kw_loop s kws base
  = base + 2 * Z.of_nat (length
      (filter (fun kw => str_truthy kw && str_in kw s = true) kws)).
Proof.
  unfold kw_loop. revert base.
  induction kws as [|kw kws IH]; intros base; simpl; [lia |].
  rewrite IH, filter_cons. unfold kw_step.
  case_decide as Hkw; [rewrite Hkw; simpl length |
    apply not_true_is_false in Hkw; rewrite Hkw]; lia.
Qed.

(** The order in which the set yields its keywords does not matter. *)
Lemma kw_loop_perm (s : pystr) (kws kws' : list pystr) (base : Z) :
  kws ≡ₚ kws' -> kw_loop s kws base = kw_loop s kws' base.
Proof. intros Hp. rewrite !kw_loop_count. by rewrite Hp. Qed.

Lemma elements_filter_perm (P : pystr -> Prop) `{!forall x, Decision (P x)}
    (K : gset pystr) :
  elements (filter P K) ≡ₚ filter P (elements K).
Proof.
  apply NoDup_Permutation.
  - apply NoDup_elements.
  - apply NoDup_filter, NoDup_elements.
  - intros kw. rewrite elem_of_elements, elem_of_filter.
    rewrite list_elem_of_filter, elem_of_elements. done.
Qed.

Lemma kw_loop_size (s : pystr) (K : gset pystr) :
  kw_loop s (elements K) 0
  = 2 * Z.of_nat (size
      (filter (fun kw => str_truthy kw && str_in kw s = true) K)).
Proof.
  rewrite kw_loop_count. unfold size, set_size. simpl.
  by rewrite elements_filter_perm.
Qed.

Lemma str_truthy_spec (s : pystr) : str_truthy s = true <-> s <> [].
Proof. by destruct s. Qed.

(** ** What the handlers compute *)

Lemma build_keywords_ok (req : RecommendRequest) :
  build_keywords req = Ok (keywords_of req).
Proof.
  unfold build_keywords, keywords_of.
  by destruct (industry req) as [[|c s]|].
Qed.

Lemma recommend_run (req : RecommendRequest) (st : store) :
  recommend req st
  = (Ok (take 3 (sorted_desc (request_score req) (catalog st))), st).
Proof.
  unfold recommend, bind, lift. by rewrite build_keywords_ok.
Qed.

Lemma serve_all_store (cs : list call) (st : store) :
  (serve_all cs st).2 = st.
Proof.
  revert st. induction cs as [|c cs IH]; intros st; simpl; [done |].
  assert (Hc : exists r, serve c st = (r, st)).
  { destruct c; simpl; [by eexists | rewrite recommend_run; by eexists]. }
  destruct Hc as [r ->]. specialize (IH st).
  destruct (serve_all cs st) as [rs st']. done.
Qed.

End Recommender.

(** ** Reduction to [plain_lower] on plain data *)

Section PlainData.
Variable str_lower : pystr -> pystr.

Lemma haystack_plain (sol : Solution) :
  lower_on_plain str_lower -> plain_solution sol = true ->
  haystack str_lower sol = haystack plain_lower sol.
Proof.
  intros Hl Hs. unfold plain_solution in Hs.
  apply andb_true_iff in Hs as [Hs Hd]. apply andb_true_iff in Hs as [Ht Hc].
  unfold haystack. by rewrite (Hl _ Ht), (Hl _ Hc), (Hl _ Hd).
Qed.

Lemma keywords_of_plain (req : RecommendRequest) :
  lower_on_plain str_lower -> plain_str (default [] (industry req)) = true ->
  keywords_of str_lower req = keywords_of plain_lower req.
Proof. intros Hl Hi. unfold keywords_of. by rewrite (Hl _ Hi). Qed.

Lemma request_score_plain (req : RecommendRequest) (sol : Solution) :
  lower_on_plain str_lower -> plain_str (default [] (industry req)) = true ->
  plain_solution sol = true ->
  request_score str_lower req sol = request_score plain_lower req sol.
Proof.
  intros Hl Hi Hs. unfold request_score, score, score_with.
  by rewrite keywords_of_plain, haystack_plain.
Qed.

Lemma base_score_plain (req : RecommendRequest) (sol : Solution) :
  lower_on_plain str_lower -> plain_str (default [] (industry req)) = true ->
  plain_solution sol = true ->
  base_score str_lower req sol = base_score plain_lower req sol.
Proof.
  intros Hl Hi Hs. unfold base_score.
  by rewrite keywords_of_plain, haystack_plain.
Qed.

Lemma recommend_plain (req : RecommendRequest) (st : store) :
  lower_on_plain str_lower -> plain_str (default [] (industry req)) = true ->
  forallb plain_solution (catalog st) = true ->
  recommend str_lower req st = recommend plain_lower req st.
Proof.
  intros Hl Hi Hc. rewrite !recommend_run. do 3 f_equal.
  apply sorted_desc_ext. intros sol Hsol.
  apply request_score_plain; [done | done |].
  rewrite forallb_forall in Hc. apply Hc. by apply list_elem_of_In.
Qed.

Lemma map_request_score_plain (req : RecommendRequest) (l : list Solution) :
  lower_on_plain str_lower -> plain_str (default [] (industry req)) = true ->
  forallb plain_solution l = true ->
  map (request_score str_lower req) l = map (request_score plain_lower req) l.
Proof.
  intros Hl Hi Hc. apply map_ext_in. intros sol Hsol.
  apply request_score_plain; [done | done |].
  rewrite forallb_forall in Hc. by apply Hc.
Qed.
End PlainData.

Lemma catalog_plain : forallb plain_solution CATALOG = true.
Proof. vm_compute. reflexivity. Qed.

Lemma catalog_cases (P : Solution -> Prop) :
  P lead_capture_crm -> P invoice_automation -> P marketing_drip ->
  P support_triage -> P ops_dashboard ->
  forall sol, sol ∈ CATALOG -> P sol.
Proof.
  intros H1 H2 H3 H4 H5 sol Hsol. unfold CATALOG in Hsol.
  repeat (apply elem_of_cons in Hsol as [-> | Hsol]; [done |]).
  by apply elem_of_nil in Hsol.
Qed.

(** ** Scoring *)

Section Scoring.
Variable str_lower : pystr -> pystr.

Lemma keywords_of_members (req : RecommendRequest) (kw : pystr) :
  lower_on_plain str_lower ->
  kw ∈ keywords_of str_lower req <->
  kw ∈ industry_tokens str_lower req \/ kw ∈ goals req \/ kw ∈ processes req.
Proof.
  intros Hl. unfold keywords_of, industry_tokens.
  rewrite !elem_of_union, !elem_of_list_to_set.
  destruct (industry req) as [s|]; simpl; [tauto |].
  rewrite (Hl [] eq_refl). simpl. tauto.
Qed.

Lemma haystack_catalog (sol : Solution) :
  lower_on_plain str_lower -> sol ∈ CATALOG ->
  haystack str_lower sol = lowercase_concatenation str_lower sol.
Proof.
  intros Hl. revert sol.
  apply catalog_cases; unfold haystack, lowercase_concatenation;
    rewrite !Hl by (vm_compute; reflexivity); vm_compute; reflexivity.
Qed.

(** C1. For every request and every catalog entry, the points of the entry
    after the keyword loop are 2 for each distinct keyword that is a
    non-empty substring of the haystack.  The keyword set is the union of
    the lowercased, whitespace-split industry tokens with the goal and
    process strings as they are; the haystack is the lowercase of title,
    category and description joined by single spaces, and does not depend
    on impact or tools.  These points are the part of the value of [score]
    that comes from the keywords, the rest being the three bonuses, and
    [score] with this keyword set is the key by which [recommend] ranks. *)
Theorem base_score_counts_keywords (req : RecommendRequest) (sol : Solution) :
  lower_on_plain str_lower -> sol ∈ CATALOG ->
  exists keywords matched : gset pystr,
    build_keywords str_lower req = Ok keywords /\
    (forall kw, kw ∈ keywords <->
       kw ∈ industry_tokens str_lower req \/ kw ∈ goals req
       \/ kw ∈ processes req) /\
    haystack str_lower sol = lowercase_concatenation str_lower sol /\
    (forall i t,
       haystack str_lower
         (mkSolution (id sol) (title sol) (category sol) (description sol)
            i t (complexity sol))
       = haystack str_lower sol) /\
    (forall kw, kw ∈ matched <->
       kw ∈ keywords /\ kw <> [] /\ substring kw (haystack str_lower sol)) /\
    base_score str_lower req sol = 2 * Z.of_nat (size matched) /\
    score str_lower keywords req sol
    = 2 * Z.of_nat (size matched)
      + (if errors_bonus req (haystack str_lower sol) then 2 else 0)
      + (if time_bonus req (haystack str_lower sol) then 2 else 0)
      + (if low_bonus req sol then 1 else 0) /\
    (forall st,
       recommend str_lower req st
       = (Ok (take 3 (sorted_desc (score str_lower keywords req) (catalog st))),
          st)).
Proof.
  intros Hl Hsol.
  exists (keywords_of str_lower req),
    (filter (fun kw => str_truthy kw && str_in kw (haystack str_lower sol) = true)
       (keywords_of str_lower req)).
  split; [apply build_keywords_ok |].
  split; [intros kw; by apply keywords_of_members |].
  split; [by apply haystack_catalog |].
  split; [done |].
  split.
  { intros kw. rewrite elem_of_filter, andb_true_iff.
    rewrite str_truthy_spec, str_in_spec. tauto. }
  split; [apply kw_loop_size |].
  split; [| intros st; apply recommend_run].
  unfold score, score_with. rewrite kw_loop_size.
  destruct (errors_bonus _ _), (time_bonus _ _), (low_bonus _ _); lia.
Qed.

(** C2. [recommend] ranks the whole catalog by score, highest first, with
    a stable sort: the ranking is a permutation of the catalog in
    descending order of score, the entries of any one score are in catalog
    order, and two entries of equal score that both reach the output
    appear there in the order they have in the catalog. *)
Theorem recommend_sorts_stably (req : RecommendRequest) (st : store) :
  exists keywords ranked,
    build_keywords str_lower req = Ok keywords /\
    recommend str_lower req st = (Ok (take 3 ranked), st) /\
    ranked ≡ₚ catalog st /\
    StronglySorted
      (fun a b => score str_lower keywords req b <= score str_lower keywords req a)
      ranked /\
    (forall k,
       filter (fun sol => score str_lower keywords req sol = k) ranked
       = filter (fun sol => score str_lower keywords req sol = k) (catalog st)) /\
    (forall a b,
       score str_lower keywords req a = score str_lower keywords req b ->
       precedes a b (take 3 ranked) -> precedes a b (catalog st)).
Proof.
  exists (keywords_of str_lower req),
    (sorted_desc (request_score str_lower req) (catalog st)).
  split; [apply build_keywords_ok |].
  split; [apply recommend_run |].
  split; [apply sorted_desc_perm |].
  split; [apply sorted_desc_sorted |].
  split; [intros k; apply sorted_desc_filter |].
  intros a b Hab Hp.
  apply precedes_take in Hp.
  by apply (precedes_sorted_desc (request_score str_lower req)) in Hp.
Qed.

(** C4. [recommend] returns at most 3 entries, exactly
    [min 3 (length catalog)] of them; with the catalog of five, 3. *)
Theorem recommend_length (req : RecommendRequest) (st : store) :
  exists out out0,
    recommend str_lower req st = (Ok out, st) /\
    (length out <= 3)%nat /\
    length out = Nat.min 3 (length (catalog st)) /\
    recommend str_lower req initial_store = (Ok out0, initial_store) /\
    length out0 = 3%nat.
Proof.
  exists (take 3 (sorted_desc (request_score str_lower req) (catalog st))),
    (take 3 (sorted_desc (request_score str_lower req) CATALOG)).
  split; [apply recommend_run |].
  rewrite !length_take, !sorted_desc_length.
  split; [lia |]. split; [reflexivity |].
  split; [apply recommend_run | reflexivity].
Qed.
End Scoring.

(** ** The handlers: failure, effects, determinism *)

Section Handlers.
Variable str_lower : pystr -> pystr.

Lemma request_score_parts (req : RecommendRequest) (sol : Solution) :
  request_score str_lower req sol
  = base_score str_lower req sol
    + (if errors_bonus req (haystack str_lower sol) then 2 else 0)
    + (if time_bonus req (haystack str_lower sol) then 2 else 0)
    + (if low_bonus req sol then 1 else 0).
Proof.
  unfold request_score, score, score_with, base_score.
  destruct (errors_bonus _ _), (time_bonus _ _), (low_bonus _ _); lia.
Qed.

Lemma base_score_nonneg (req : RecommendRequest) (sol : Solution) :
  0 <= base_score str_lower req sol.
Proof. unfold base_score. rewrite kw_loop_size. lia. Qed.

Lemma base_score_no_match (req : RecommendRequest) (sol : Solution) :
  (forall kw, kw ∈ keywords_of str_lower req ->
     kw = [] \/ ~ substring kw (haystack str_lower sol)) ->
  base_score str_lower req sol = 0.
Proof.
  intros Hno. unfold base_score. rewrite kw_loop_size.
  rewrite (proj2 (size_empty_iff _)); [done |].
  apply elem_of_equiv_empty. intros kw.
  rewrite elem_of_filter, andb_true_iff, str_truthy_spec, str_in_spec.
  intros [[Hne Hsub] Hin]. destruct (Hno kw Hin); done.
Qed.

Lemma low_bonus_unknown_team (req : RecommendRequest) (sol : Solution) :
  team_size req <> Some (u "solo") -> team_size req <> Some (u "small") ->
  team_size req <> None ->
  low_bonus req sol = false.
Proof.
  intros H1 H2 H3. unfold low_bonus.
  rewrite (bool_decide_eq_false_2 (team_size req ∈ _)); [apply andb_false_r |].
  rewrite !elem_of_union, !elem_of_singleton. tauto.
Qed.

(** C7. [recommend] never raises and leaves the store as it was, for every
    request.  A missing industry is replaced by the empty string before
    [lower] is called on it; keywords that are empty or occur in no
    haystack, an empty list of goals and a team size outside the three
    accepted values each contribute 0, and together give the score 0. *)
Theorem recommend_never_raises (req : RecommendRequest) (st : store) :
  (exists out, recommend str_lower req st = (Ok out, st)) /\
  (exists low,
     meth_lower str_lower (py_or (of_optional (industry req)) (PyStr []))
     = Ok low) /\
  (forall sol, 0 <= request_score str_lower req sol) /\
  (forall sol,
     (forall kw, kw ∈ keywords_of str_lower req ->
        kw = [] \/ ~ substring kw (haystack str_lower sol)) ->
     base_score str_lower req sol = 0) /\
  (forall s,
     goals req = [] -> errors_bonus req s = false /\ time_bonus req s = false) /\
  (forall sol,
     team_size req <> Some (u "solo") -> team_size req <> Some (u "small") ->
     team_size req <> None ->
     low_bonus req sol = false) /\
  (forall sol,
     (forall kw, kw ∈ keywords_of str_lower req ->
        kw = [] \/ ~ substring kw (haystack str_lower sol)) ->
     goals req = [] ->
     team_size req <> Some (u "solo") -> team_size req <> Some (u "small") ->
     team_size req <> None ->
     request_score str_lower req sol = 0).
Proof.
  assert (Hgoals : forall s, goals req = [] ->
            errors_bonus req s = false /\ time_bonus req s = false).
  { intros s Hg. unfold errors_bonus, time_bonus. rewrite Hg.
    rewrite !bool_decide_eq_false_2 by apply not_elem_of_nil. done. }
  split; [eexists; apply recommend_run |].
  split.
  { destruct (industry req) as [[|c s]|]; simpl; by eexists. }
  split.
  { intros sol. rewrite request_score_parts.
    pose proof (base_score_nonneg req sol).
    destruct (errors_bonus _ _), (time_bonus _ _), (low_bonus _ _); lia. }
  split; [apply base_score_no_match |].
  split; [exact Hgoals |].
  split; [intros sol; apply low_bonus_unknown_team |].
  intros sol Hno Hg H1 H2 H3. rewrite request_score_parts.
  rewrite base_score_no_match by done.
  destruct (Hgoals (haystack str_lower sol) Hg) as [-> ->].
  by rewrite low_bonus_unknown_team.
Qed.

Lemma score_with_perm (order : list pystr) (req : RecommendRequest)
    (sol : Solution) :
  order ≡ₚ elements (keywords_of str_lower req) ->
  score_with str_lower order req sol = request_score str_lower req sol.
Proof.
  intros Hp. unfold request_score, score, score_with.
  by rewrite (kw_loop_perm _ _ _ _ Hp).
Qed.

(** C8. Two calls of [recommend] with the same request on stores holding
    the same catalog return the same sequence, and a call leaves the store
    as it found it, so the second of two successive calls sees the catalog
    of the first.  The order in which the keyword set is iterated has no
    influence on a score. *)
Theorem recommend_deterministic (req : RecommendRequest) (st1 st2 : store)
    (order : list pystr) (sol : Solution) :
  catalog st1 = catalog st2 ->
  order ≡ₚ elements (keywords_of str_lower req) ->
  (recommend str_lower req st1).1 = (recommend str_lower req st2).1 /\
  (recommend str_lower req st1).2 = st1 /\
  (recommend str_lower req (recommend str_lower req st1).2).1
  = (recommend str_lower req st1).1 /\
  score_with str_lower order req sol = request_score str_lower req sol.
Proof.
  intros Hc Hp. rewrite !recommend_run. simpl. rewrite Hc.
  split; [done |]. split; [done |]. split; [done |].
  by apply score_with_perm.
Qed.

(** C9. Neither [list_solutions] nor [recommend] changes the catalog: after
    any sequence of calls the store is the initial one, its catalog is the
    fixed sequence of five entries, and listing it, then serving any
    further calls, then listing it again gives the same result twice.
    [recommend] returns its ranking and leaves the store alone. *)
Theorem catalog_never_mutated (cs cs' : list call) (req : RecommendRequest) :
  (serve_all str_lower cs initial_store).2 = initial_store /\
  catalog (serve_all str_lower cs initial_store).2 = CATALOG /\
  length (catalog (serve_all str_lower cs initial_store).2) = 5%nat /\
  list_solutions (serve_all str_lower cs initial_store).2
  = (Ok CATALOG, initial_store) /\
  (list_solutions
     (serve_all str_lower cs' (serve_all str_lower cs initial_store).2).2).1
  = (list_solutions (serve_all str_lower cs initial_store).2).1 /\
  (recommend str_lower req (serve_all str_lower cs initial_store).2).2
  = initial_store.
Proof.
  rewrite !serve_all_store, recommend_run. repeat split.
Qed.
End Handlers.

(** ** The scenarios on the fixed catalog *)

Section Scenarios.
Variable str_lower : pystr -> pystr.

Lemma str_in_lower_plain (kw f : pystr) :
  lower_on_plain str_lower -> plain_str f = true ->
  str_in kw (str_lower f) = str_in kw (plain_lower f).
Proof. intros Hl Hf. by rewrite (Hl f Hf). Qed.

Lemma no_occurrence_check (l : list pystr) :
  lower_on_plain str_lower ->
  forallb (fun f => plain_str f
                    && negb (str_in (u "error") (plain_lower f))
                    && negb (str_in (u "tempo") (plain_lower f))) l = true ->
  Forall (fun f => str_in (u "error") (str_lower f) = false
                   /\ str_in (u "tempo") (str_lower f) = false) l.
Proof.
  intros Hl Hall. apply Forall_forall. intros f Hf.
  rewrite forallb_forall in Hall. apply list_elem_of_In, Hall in Hf.
  apply andb_true_iff in Hf as [Hf Ht]. apply andb_true_iff in Hf as [Hp He].
  rewrite !(str_in_lower_plain _ f Hl Hp).
  by destruct (str_in (u "error") _), (str_in (u "tempo") _).
Qed.

Lemma haystack_no_goal_word (sol : Solution) :
  lower_on_plain str_lower -> sol ∈ CATALOG ->
  str_in (u "error") (haystack str_lower sol) = false
  /\ str_in (u "tempo") (haystack str_lower sol) = false.
Proof.
  intros Hl. revert sol.
  apply catalog_cases;
    (rewrite haystack_plain by (done || (vm_compute; reflexivity)));
    vm_compute; done.
Qed.

(** C3, as the code has it.  For the empty request the keyword set is
    empty, and an absent team size is one of the three values that give
    the Low-complexity point: the two Low entries score 1 and the other
    three 0, and [recommend] returns lead-capture-crm, marketing-drip and
    invoice-automation, in this order. *)
Theorem empty_request_ranking :
  lower_on_plain str_lower ->
  keywords_of str_lower empty_request = ∅ /\
  map (low_bonus empty_request) CATALOG = [true; false; true; false; false] /\
  map (request_score str_lower empty_request) CATALOG = [1; 0; 1; 0; 0] /\
  recommend str_lower empty_request initial_store
  = (Ok [lead_capture_crm; marketing_drip; invoice_automation],
     initial_store).
Proof.
  intros Hl.
  rewrite keywords_of_plain, map_request_score_plain, recommend_plain
    by (done || (vm_compute; reflexivity)).
  vm_compute. repeat split.
Qed.

(** C5, as the code has it.  For the request with the single goal
    reduce_errors, no processes, no industry and no team size, no haystack
    of the catalog contains "error": "errori" is in the impact text of
    invoice-automation, which the haystack leaves out.  The entry gets no
    reduce_errors bonus and scores 0; the two Low entries score 1, and it
    comes third in the result. *)
Theorem reduce_errors_scenario :
  lower_on_plain str_lower ->
  Forall (fun sol => str_in (u "error") (haystack str_lower sol) = false)
    CATALOG /\
  str_in (u "error") (str_lower (impact invoice_automation)) = true /\
  errors_bonus reduce_errors_request (haystack str_lower invoice_automation)
  = false /\
  map (request_score str_lower reduce_errors_request) CATALOG
  = [1; 0; 1; 0; 0] /\
  recommend str_lower reduce_errors_request initial_store
  = (Ok [lead_capture_crm; marketing_drip; invoice_automation],
     initial_store).
Proof.
  intros Hl. split.
  { apply Forall_forall. intros sol Hsol.
    by apply haystack_no_goal_word. }
  rewrite str_in_lower_plain by (done || (vm_compute; reflexivity)).
  rewrite haystack_plain, map_request_score_plain, recommend_plain
    by (done || (vm_compute; reflexivity)).
  vm_compute. repeat split.
Qed.

(** C6, as the code has it.  For the request with the goal save_time, the
    process lead_intake, no industry and no team size, the keywords are
    the two whole strings "save_time" and "lead_intake"; neither occurs in
    the haystack of lead-capture-crm (the word "lead" does, but is not a
    keyword), so the entry gets no base points.  The haystack does not
    contain "tempo" ("tempi" is in the impact text), so there is no
    save_time bonus.  The entry scores 1, the Low-complexity point. *)
Theorem save_time_lead_scenario :
  lower_on_plain str_lower ->
  keywords_of str_lower save_time_lead_request
  = {[ u "save_time"; u "lead_intake" ]} /\
  str_in (u "lead") (haystack str_lower lead_capture_crm) = true /\
  str_in (u "lead_intake") (haystack str_lower lead_capture_crm) = false /\
  str_in (u "save_time") (haystack str_lower lead_capture_crm) = false /\
  base_score str_lower save_time_lead_request lead_capture_crm = 0 /\
  str_in (u "tempo") (haystack str_lower lead_capture_crm) = false /\
  str_in (u "tempi") (str_lower (impact lead_capture_crm)) = true /\
  time_bonus save_time_lead_request (haystack str_lower lead_capture_crm)
  = false /\
  low_bonus save_time_lead_request lead_capture_crm = true /\
  request_score str_lower save_time_lead_request lead_capture_crm = 1.
Proof.
  intros Hl. split.
  { rewrite keywords_of_plain by (done || (vm_compute; reflexivity)).
    unfold keywords_of. change (str_split _) with (@nil pystr).
    cbn [list_to_set goals processes save_time_lead_request foldr].
    set_solver. }
  rewrite base_score_plain, request_score_plain
    by (done || (vm_compute; reflexivity)).
  rewrite str_in_lower_plain by (done || (vm_compute; reflexivity)).
  rewrite haystack_plain by (done || (vm_compute; reflexivity)).
  vm_compute. repeat split.
Qed.

(** C10, as the catalog has it.  On the fixed catalog the two goal bonuses
    never fire, whatever the request: no haystack contains "error" or
    "tempo", so both conditions are false and a score is the base score plus
    the Low-complexity point.  "error" occurs in one text only, the impact
    of invoice-automation, which the haystack leaves out.  "tempo" occurs in
    no text of any entry, impact included: the impact of lead-capture-crm
    and of support-triage have "tempi". *)
Theorem goal_bonuses_never_fire (req : RecommendRequest) (sol : Solution) :
  lower_on_plain str_lower -> sol ∈ CATALOG ->
  str_in (u "error") (haystack str_lower sol) = false /\
  str_in (u "tempo") (haystack str_lower sol) = false /\
  errors_bonus req (haystack str_lower sol) = false /\
  time_bonus req (haystack str_lower sol) = false /\
  request_score str_lower req sol
  = base_score str_lower req sol + (if low_bonus req sol then 1 else 0) /\
  Forall (fun f => str_in (u "error") (str_lower f) = false
                   /\ str_in (u "tempo") (str_lower f) = false)
    (fields_but_impact sol) /\
  str_in (u "error") (str_lower (impact invoice_automation)) = true /\
  str_in (u "error") (str_lower (impact sol))
  = bool_decide (sol = invoice_automation) /\
  str_in (u "tempo") (str_lower (impact sol)) = false /\
  str_in (u "tempi") (str_lower (impact lead_capture_crm)) = true /\
  str_in (u "tempi") (str_lower (impact support_triage)) = true.
Proof.
  intros Hl Hsol.
  destruct (haystack_no_goal_word sol Hl Hsol) as [He Ht].
  split; [done |]. split; [done |].
  assert (Heb : errors_bonus req (haystack str_lower sol) = false).
  { unfold errors_bonus. rewrite He. apply andb_false_r. }
  assert (Htb : time_bonus req (haystack str_lower sol) = false).
  { unfold time_bonus. rewrite Ht. apply andb_false_r. }
  split; [done |]. split; [done |].
  split; [rewrite request_score_parts, Heb, Htb; lia |].
  split.
  - clear He Ht Heb Htb. revert sol Hsol.
    apply catalog_cases;
      (apply no_occurrence_check; [done | vm_compute; reflexivity]).
  - split.
    { rewrite str_in_lower_plain by (done || (vm_compute; reflexivity)).
      vm_compute. reflexivity. }
    split.
    { clear He Ht Heb Htb. revert sol Hsol.
      apply catalog_cases;
        (rewrite str_in_lower_plain by (done || (vm_compute; reflexivity)));
        vm_compute; reflexivity. }
    split.
    { clear He Ht Heb Htb. revert sol Hsol.
      apply catalog_cases;
        (rewrite str_in_lower_plain by (done || (vm_compute; reflexivity)));
        vm_compute; reflexivity. }
    rewrite !str_in_lower_plain by (done || (vm_compute; reflexivity)).
    vm_compute. split; reflexivity.
Qed.
End Scenarios.

(** ** Concrete runs

    Every string lowercased in the runs below is plain, so [plain_lower] is
    what [str.lower] returns on it. *)

(** The ids of a response, for comparing two responses by their entries. *)
Lemma ids_differ (l l' : list Solution) :
  map id l <> map id l' -> Ok l <> Ok l'.
Proof. intros Hne Heq. injection Heq as ->. done. Qed.

(** C3 does not hold as stated: on the empty request the scores are not all
    0 (lead-capture-crm scores 1), and the result is not the first three
    entries of the catalog. *)
Lemma empty_request_not_all_zero :
  ~ (forall sol, sol ∈ CATALOG ->
       request_score plain_lower empty_request sol = 0)
  /\ (recommend plain_lower empty_request initial_store).1
     <> Ok (take 3 CATALOG).
Proof.
  split.
  - intros Hall.
    specialize (Hall lead_capture_crm (list_elem_of_here _ _)).
    vm_compute in Hall. discriminate Hall.
  - rewrite recommend_run. apply ids_differ. vm_compute. discriminate.
Qed.

Lemma empty_request_ranking_witness :
  lower_on_plain plain_lower /\
  keywords_of plain_lower empty_request = ∅ /\
  map (low_bonus empty_request) CATALOG = [true; false; true; false; false] /\
  map (request_score plain_lower empty_request) CATALOG = [1; 0; 1; 0; 0] /\
  recommend plain_lower empty_request initial_store
  = (Ok [lead_capture_crm; marketing_drip; invoice_automation], initial_store).
Proof.
  split; [apply plain_lower_on_plain |].
  apply (empty_request_ranking plain_lower). apply plain_lower_on_plain.
Defined.

(** C5 does not hold as stated: invoice-automation gets no reduce_errors
    bonus, and it does not score above the entries whose haystack lacks
    "error" (lead-capture-crm is one, and scores more). *)
Lemma reduce_errors_no_bonus_for_invoice :
  errors_bonus reduce_errors_request (haystack plain_lower invoice_automation)
  <> true
  /\ ~ (forall sol, sol ∈ CATALOG ->
          str_in (u "error") (haystack plain_lower sol) = false ->
          request_score plain_lower reduce_errors_request sol
          < request_score plain_lower reduce_errors_request invoice_automation).
Proof.
  split.
  - vm_compute. discriminate.
  - intros Hall.
    specialize (Hall lead_capture_crm (list_elem_of_here _ _)).
    vm_compute in Hall. specialize (Hall eq_refl). discriminate Hall.
Qed.

Lemma reduce_errors_scenario_witness :
  lower_on_plain plain_lower /\
  Forall (fun sol => str_in (u "error") (haystack plain_lower sol) = false)
    CATALOG /\
  str_in (u "error") (plain_lower (impact invoice_automation)) = true /\
  errors_bonus reduce_errors_request (haystack plain_lower invoice_automation)
  = false /\
  map (request_score plain_lower reduce_errors_request) CATALOG
  = [1; 0; 1; 0; 0] /\
  recommend plain_lower reduce_errors_request initial_store
  = (Ok [lead_capture_crm; marketing_drip; invoice_automation], initial_store).
Proof.
  split; [apply plain_lower_on_plain |].
  apply (reduce_errors_scenario plain_lower). apply plain_lower_on_plain.
Defined.

(** C6 does not hold as stated: lead-capture-crm gains no base points from
    the keywords of the request, and gets no save_time bonus. *)
Lemma save_time_lead_no_points :
  ~ (0 < base_score plain_lower save_time_lead_request lead_capture_crm)
  /\ time_bonus save_time_lead_request (haystack plain_lower lead_capture_crm)
     <> true.
Proof.
  split.
  - vm_compute. discriminate.
  - vm_compute. discriminate.
Qed.

Lemma save_time_lead_scenario_witness :
  lower_on_plain plain_lower /\
  request_score plain_lower save_time_lead_request lead_capture_crm = 1.
Proof.
  split; [apply plain_lower_on_plain |].
  apply (save_time_lead_scenario plain_lower). apply plain_lower_on_plain.
Defined.

Lemma goal_bonuses_never_fire_witness :
  lower_on_plain plain_lower /\ invoice_automation ∈ CATALOG /\
  errors_bonus reduce_errors_request (haystack plain_lower invoice_automation)
  = false /\
  time_bonus reduce_errors_request (haystack plain_lower invoice_automation)
  = false.
Proof.
  split; [apply plain_lower_on_plain |].
  assert (Hin : invoice_automation ∈ CATALOG)
    by (apply list_elem_of_further, list_elem_of_here).
  split; [exact Hin |].
  destruct (goal_bonuses_never_fire plain_lower reduce_errors_request
              invoice_automation plain_lower_on_plain Hin)
    as (_ & _ & He & Ht & _).
  split; [exact He | exact Ht].
Defined.

Lemma base_score_counts_keywords_witness :
  lower_on_plain plain_lower /\ lead_capture_crm ∈ CATALOG /\
  exists keywords matched : gset pystr,
    build_keywords plain_lower retail_request = Ok keywords /\
    (forall kw, kw ∈ keywords <->
       kw ∈ industry_tokens plain_lower retail_request
       \/ kw ∈ goals retail_request \/ kw ∈ processes retail_request) /\
    haystack plain_lower lead_capture_crm
    = lowercase_concatenation plain_lower lead_capture_crm /\
    (forall i t,
       haystack plain_lower
         (mkSolution (id lead_capture_crm) (title lead_capture_crm)
            (category lead_capture_crm) (description lead_capture_crm)
            i t (complexity lead_capture_crm))
       = haystack plain_lower lead_capture_crm) /\
    (forall kw, kw ∈ matched <->
       kw ∈ keywords /\ kw <> []
       /\ substring kw (haystack plain_lower lead_capture_crm)) /\
    base_score plain_lower retail_request lead_capture_crm
    = 2 * Z.of_nat (size matched) /\
    score plain_lower keywords retail_request lead_capture_crm
    = 2 * Z.of_nat (size matched)
      + (if errors_bonus retail_request (haystack plain_lower lead_capture_crm)
         then 2 else 0)
      + (if time_bonus retail_request (haystack plain_lower lead_capture_crm)
         then 2 else 0)
      + (if low_bonus retail_request lead_capture_crm then 1 else 0) /\
    (forall st,
       recommend plain_lower retail_request st
       = (Ok (take 3 (sorted_desc (score plain_lower keywords retail_request)
                        (catalog st))),
          st)).
Proof.
  split; [apply plain_lower_on_plain |].
  split; [apply list_elem_of_here |].
  apply (base_score_counts_keywords plain_lower retail_request lead_capture_crm).
  - apply plain_lower_on_plain.
  - apply list_elem_of_here.
Defined.

Lemma recommend_deterministic_witness :
  catalog initial_store = catalog initial_store /\
  reverse (elements (keywords_of plain_lower retail_request))
    ≡ₚ elements (keywords_of plain_lower retail_request) /\
  (recommend plain_lower retail_request initial_store).1
  = (recommend plain_lower retail_request initial_store).1 /\
  (recommend plain_lower retail_request initial_store).2 = initial_store /\
  (recommend plain_lower retail_request
     (recommend plain_lower retail_request initial_store).2).1
  = (recommend plain_lower retail_request initial_store).1 /\
  score_with plain_lower
    (reverse (elements (keywords_of plain_lower retail_request)))
    retail_request lead_capture_crm
  = request_score plain_lower retail_request lead_capture_crm.
Proof.
  split; [reflexivity |].
  split; [apply reverse_Permutation |].
  apply (recommend_deterministic plain_lower retail_request initial_store
           initial_store _ lead_capture_crm).
  - reflexivity.
  - apply reverse_Permutation.
Defined.

Lemma recommend_never_raises_witness :
  (exists out,
     recommend plain_lower odd_request initial_store = (Ok out, initial_store))
  /\ request_score plain_lower odd_request lead_capture_crm = 0.
Proof.
  destruct (recommend_never_raises plain_lower odd_request initial_store)
    as (Hrun & _ & _ & _ & Hgoals & Hteam & _).
  split; [exact Hrun |].
  rewrite request_score_parts.
  rewrite (Hteam lead_capture_crm) by (vm_compute; discriminate).
  vm_compute. reflexivity.
Defined.


(** ** The diagnostic endpoint *)

(** Lookup of a literal key in a dictionary built by assignments to
    literal keys. *)
Ltac key_neq :=
  let H := fresh in intros H; vm_compute in H; discriminate H.

Ltac dict_lookup :=
  repeat first
    [ rewrite lookup_insert_eq
    | rewrite lookup_insert_ne by key_neq
    | rewrite lookup_empty ].

Lemma test_database_url (imp : import_outcome) (env : environ) :
  test_database imp env !! u "database_url"
  = Some (DStr (if truthy (of_optional (DATABASE_URL env))
                then mark_ok ++ u " Set" else mark_no ++ u " Not Set")).
Proof. unfold test_database. by dict_lookup. Qed.

Lemma test_database_name (imp : import_outcome) (env : environ) :
  test_database imp env !! u "database_name"
  = Some (DStr (if truthy (of_optional (DATABASE_NAME env))
                then mark_ok ++ u " Set" else mark_no ++ u " Not Set")).
Proof. unfold test_database. by dict_lookup. Qed.

Lemma test_database_backend (imp : import_outcome) (env : environ) :
  test_database imp env !! u "backend" = Some (DStr (mark_ok ++ u " Running")).
Proof.
  unfold test_database.
  destruct imp as [|msg|[db|]|[|msg]];
    [| | destruct (db_collections db) | | |];
    by dict_lookup.
Qed.

Lemma test_database_status (imp : import_outcome) (env : environ) :
  test_database imp env !! u "connection_status"
  = Some (DStr (match imp with
                | Imported (Some _) => u "Connected"
                | _ => u "Not Connected"
                end)).
Proof.
  unfold test_database.
  destruct imp as [|msg|[db|]|[|msg]];
    [| | destruct (db_collections db) | | |];
    by dict_lookup.
Qed.

Lemma test_database_database (imp : import_outcome) (env : environ) :
  test_database imp env !! u "database"
  = Some (DStr
      match imp with
      | ImportFails =>
          mark_no ++ u " Database module not found (run enable-database first)"
      | ImportRaises msg => mark_no ++ u " Error: " ++ take 50 msg
      | Imported None => mark_warn ++ u "  Available but not initialized"
      | Imported (Some db) =>
          match db_collections db with
          | inr _ => mark_ok ++ u " Connected & Working"
          | inl msg => mark_warn ++ u "  Connected but Error: " ++ take 50 msg
          end
      | ImportedUnreadable CaughtImportError =>
          mark_no ++ u " Database module not found (run enable-database first)"
      | ImportedUnreadable (CaughtException msg) =>
          mark_no ++ u " Error: " ++ take 50 msg
      end).
Proof.
  unfold test_database.
  destruct imp as [|msg|[db|]|[|msg]];
    [| | destruct (db_collections db) | | |];
    by dict_lookup.
Qed.

Lemma test_database_collections_field (imp : import_outcome) (env : environ) :
  test_database imp env !! u "collections"
  = Some (DList
      match imp with
      | Imported (Some db) =>
          match db_collections db with
          | inr names => take 10 names
          | inl _ => []
          end
      | _ => []
      end).
Proof.
  unfold test_database.
  destruct imp as [|msg|[db|]|[|msg]];
    [| | destruct (db_collections db) | | |];
    by dict_lookup.
Qed.

(** X1. Whatever the import does, whatever the handle answers and whatever
    the environment holds, the response has the same six keys. *)
Theorem test_database_keys (imp : import_outcome) (env : environ) :
  dom (test_database imp env)
  = ({[ u "backend"; u "database"; u "database_url"; u "database_name";
        u "connection_status"; u "collections" ]} : gset pystr).
Proof.
  unfold test_database.
  destruct imp as [|msg|[db|]|[|msg]];
    [| | destruct (db_collections db) | | |];
    rewrite !dom_insert_L, dom_empty_L; set_solver.
Qed.

(** X2. The fields database_url and database_name of the response tell only
    whether the environment variable is set: the values written while the
    handle is inspected ("Configured", the name of the database) are
    overwritten and never returned.  A variable set to the empty string
    counts as not set. *)
Theorem test_database_reports_env_only (imp imp' : import_outcome)
    (env : environ) :
  test_database imp env !! u "database_url"
  = test_database imp' env !! u "database_url" /\
  test_database imp env !! u "database_name"
  = test_database imp' env !! u "database_name" /\
  (test_database imp env !! u "database_url"
   = Some (DStr (mark_no ++ u " Not Set"))
   <-> DATABASE_URL env = None \/ DATABASE_URL env = Some []) /\
  (test_database imp env !! u "database_url"
   = Some (DStr (mark_ok ++ u " Set"))
   <-> exists c s, DATABASE_URL env = Some (c :: s)) /\
  (test_database imp env !! u "database_name"
   = Some (DStr (mark_no ++ u " Not Set"))
   <-> DATABASE_NAME env = None \/ DATABASE_NAME env = Some []) /\
  (test_database imp env !! u "database_name"
   = Some (DStr (mark_ok ++ u " Set"))
   <-> exists c s, DATABASE_NAME env = Some (c :: s)).
Proof.
  rewrite !test_database_url, !test_database_name.
  split; [done |]. split; [done |].
  destruct env as [[[|c s]|] [[|c' s']|]]; simpl;
    repeat split; intros; try discriminate; eauto;
    try (destruct_or?; discriminate);
    try (destruct_and?; repeat match goal with H : ex _ |- _ => destruct H end;
         discriminate).
Qed.


(** X4. The field connection_status is "Connected" exactly when the import
    bound [db] to a handle and the attribute [name] of the handle was tested
    and read without an exception, and "Not Connected" otherwise.  It stays
    "Connected" when listing the collections then fails: the failure shows
    in the field database only, with an empty list of collections.  When
    testing or reading [name] raises, the request is answered all the same,
    as "Not Connected", with the exception reported in the field database
    and no collections. *)
Theorem test_database_connected_iff_handle (imp : import_outcome)
    (env : environ) :
  (test_database imp env !! u "connection_status"
   = Some (DStr (u "Connected"))
   <-> exists db, imp = Imported (Some db)) /\
  (test_database imp env !! u "connection_status"
   = Some (DStr (u "Not Connected"))
   <-> forall db, imp <> Imported (Some db)) /\
  (forall name msg,
     let broken := Imported (Some (mkDatabase name (inl msg))) in
     test_database broken env !! u "connection_status"
     = Some (DStr (u "Connected")) /\
     test_database broken env !! u "database"
     = Some (DStr (mark_warn ++ u "  Connected but Error: " ++ take 50 msg)) /\
     test_database broken env !! u "collections" = Some (DList [])) /\
  (forall e,
     test_database (ImportedUnreadable e) env !! u "connection_status"
     = Some (DStr (u "Not Connected")) /\
     test_database (ImportedUnreadable e) env !! u "database"
     = Some (DStr
         match e with
         | CaughtImportError =>
             mark_no
             ++ u " Database module not found (run enable-database first)"
         | CaughtException msg => mark_no ++ u " Error: " ++ take 50 msg
         end) /\
     test_database (ImportedUnreadable e) env !! u "collections"
     = Some (DList [])).
Proof.
  split; [| split; [| split]].
  - rewrite test_database_status. destruct imp as [|msg|[db|]|e]; split;
      try (intros H; vm_compute in H; discriminate H);
      try (intros [db' H]; discriminate H); eauto.
  - rewrite test_database_status. destruct imp as [|msg|[db|]|e]; split;
      try (intros H; vm_compute in H; discriminate H);
      try done.
    intros H. by destruct (H db).
  - intros name msg broken. subst broken.
    by rewrite test_database_status, test_database_database,
      test_database_collections_field.
  - intros e.
    rewrite test_database_status, test_database_database,
      test_database_collections_field. by destruct e.
Qed.

(** X5. The field database is always a non-empty string of at most 75 code
    points: of the message of an exception, only the first 50 code points
    are returned. *)
Theorem test_database_message_bounded (imp : import_outcome) (env : environ) :
  exists s,
    test_database imp env !! u "database" = Some (DStr s) /\
    (0 < length s <= 75)%nat.
Proof.
  rewrite test_database_database. eexists. split; [reflexivity |].
  destruct imp as [|msg|[db|]|[|msg]];
    [| | destruct (db_collections db) as [msg|names] | | |];
    rewrite ?length_app, ?length_take;
    try (pose proof (Nat.le_min_l 50 (length msg)) as Hmin;
         revert Hmin; generalize (Nat.min 50 (length msg)); intros n Hmin);
    simpl; lia.
Qed.


(** ** What the ranking returns *)

Section Ranking.
Variable str_lower : pystr -> pystr.

Lemma sorted_desc_head {A : Type} (key : A -> Z) (l : list A) (x : A)
    (r : list A) :
  sorted_desc key l = x :: r ->
  exists l1 l2,
    l = l1 ++ x :: l2 /\
    Forall (fun y => key y < key x) l1 /\
    Forall (fun y => key y <= key x) l2.
Proof.
  revert x r. induction l as [|a l IH]; intros x r; simpl; [done |].
  destruct (sorted_desc key l) as [|y r'] eqn:Hs; simpl.
  - intros [= <- <-]. apply (f_equal length) in Hs.
    rewrite sorted_desc_length in Hs. destruct l; [| done].
    by exists [], [].
  - destruct (IH y r' eq_refl) as (l1 & l2 & -> & H1 & H2).
    destruct (Z.ltb_spec (key a) (key y)) as [Hlt | Hge]; intros [= <- <-].
    + exists (a :: l1), l2. split; [done |]. split; [by constructor | done].
    + exists [], (l1 ++ y :: l2). split; [done |]. split; [constructor |].
      apply Forall_app. split; [| constructor].
      * eapply Forall_impl; [exact H1 |]. simpl. intros; lia.
      * done.
      * eapply Forall_impl; [exact H2 |]. simpl. intros; lia.
Qed.

(** X7. The first entry [recommend] returns has the highest score of the
    catalog, and is the earliest entry with that score: every entry before
    it in the catalog scores strictly less, every entry after it scores at
    most as much. *)
Theorem recommend_top_is_first_best (req : RecommendRequest) (st : store)
    (top : Solution) (others : list Solution) :
  recommend str_lower req st = (Ok (top :: others), st) ->
  exists before after,
    catalog st = before ++ top :: after /\
    Forall (fun sol => request_score str_lower req sol
                       < request_score str_lower req top) before /\
    Forall (fun sol => request_score str_lower req sol
                       <= request_score str_lower req top) after.
Proof.
  rewrite recommend_run. intros [= Hout].
  destruct (sorted_desc (request_score str_lower req) (catalog st))
    as [|x r] eqn:Hs; [done |].
  simpl in Hout. injection Hout as -> _.
  by apply (sorted_desc_head _ _ _ _ Hs).
Qed.

(** X8. The entries [recommend] returns are entries of the catalog, each
    returned as often as it is listed at most; they come in descending order
    of score; and no entry left out scores more than an entry returned. *)
Theorem recommend_returns_best (req : RecommendRequest) (st : store) :
  exists out left_out,
    recommend str_lower req st = (Ok out, st) /\
    out ++ left_out ≡ₚ catalog st /\
    (forall sol, sol ∈ out -> sol ∈ catalog st) /\
    (NoDup (catalog st) -> NoDup out) /\
    StronglySorted
      (fun a b => request_score str_lower req b <= request_score str_lower req a)
      out /\
    (forall a b, a ∈ out -> b ∈ left_out ->
       request_score str_lower req b <= request_score str_lower req a).
Proof.
  set (ranked := sorted_desc (request_score str_lower req) (catalog st)).
  assert (Hp : take 3 ranked ++ drop 3 ranked ≡ₚ catalog st).
  { rewrite take_drop. apply sorted_desc_perm. }
  assert (Hs : StronglySorted
            (fun a b => request_score str_lower req b
                        <= request_score str_lower req a)
            (take 3 ranked ++ drop 3 ranked)).
  { rewrite take_drop. apply sorted_desc_sorted. }
  exists (take 3 ranked), (drop 3 ranked).
  split; [apply recommend_run |]. split; [exact Hp |].
  split. { intros sol Hsol. rewrite <- Hp. apply elem_of_app. by left. }
  split. { intros Hnd. rewrite <- Hp in Hnd. by apply NoDup_app in Hnd as [? _]. }
  split; [by apply StronglySorted_app_1_l in Hs |].
  intros a b Ha Hb.
  exact (StronglySorted_app_1_elem_of _ _ _ _ _ Hs Ha Hb).
Qed.
End Ranking.

(** ** How the request enters the score *)

Section Keywords.
Variable str_lower : pystr -> pystr.

Lemma recommend_ext (req req' : RecommendRequest) (st : store) :
  (forall sol, request_score str_lower req sol
               = request_score str_lower req' sol) ->
  recommend str_lower req st = recommend str_lower req' st.
Proof.
  intros Hs. rewrite !recommend_run. do 3 f_equal.
  apply sorted_desc_ext. intros sol _. apply Hs.
Qed.

(** X9. Goals and processes count as sets: two requests with the same
    industry and team size whose goals have the same members and whose
    processes have the same members, in any order and any number of
    repetitions, give every entry the same score and get the same
    recommendation. *)
Theorem recommend_ignores_order_and_repeats (req req' : RecommendRequest)
    (st : store) (sol : Solution) :
  industry req = industry req' -> team_size req = team_size req' ->
  (forall kw, kw ∈ goals req <-> kw ∈ goals req') ->
  (forall kw, kw ∈ processes req <-> kw ∈ processes req') ->
  request_score str_lower req sol = request_score str_lower req' sol /\
  recommend str_lower req st = recommend str_lower req' st.
Proof.
  intros Hi Ht Hg Hp.
  assert (Hs : forall sol, request_score str_lower req sol
                           = request_score str_lower req' sol).
  { intros sol'.
    assert (Hk : keywords_of str_lower req = keywords_of str_lower req').
    { unfold keywords_of. rewrite Hi. apply set_eq. intros kw.
      rewrite !elem_of_union, !elem_of_list_to_set, Hg, Hp. done. }
    unfold request_score, score, score_with, errors_bonus, time_bonus,
      low_bonus.
    rewrite Hk, Ht.
    rewrite (bool_decide_ext _ _ (Hg (u "reduce_errors"))).
    rewrite (bool_decide_ext _ _ (Hg (u "save_time"))). done. }
  split; [apply Hs | by apply recommend_ext].
Qed.

Lemma kw_loop_one_more (s kw : pystr) (K : gset pystr) :
  kw_loop s (elements ({[kw]} ∪ K)) 0
  = kw_loop s (elements K) 0
    + (if bool_decide (kw ∉ K) && str_truthy kw && str_in kw s
       then 2 else 0).
Proof.
  rewrite !kw_loop_size.
  destruct (decide (kw ∈ K)) as [Hin | Hout].
  - rewrite (bool_decide_eq_false_2 (kw ∉ K)) by tauto. cbn [andb].
    assert (Hk : {[kw]} ∪ K = K).
    { apply set_eq. intros x. rewrite elem_of_union, elem_of_singleton.
      split; [intros [-> | Hx]; done | by right]. }
    rewrite Hk. lia.
  - rewrite (bool_decide_eq_true_2 (kw ∉ K)) by done. cbn [andb].
    rewrite filter_union_L, size_union.
    + destruct (str_truthy kw && str_in kw s) eqn:Hm.
      * rewrite filter_singleton_True_L, size_singleton
          by (apply _ || done). lia.
      * rewrite filter_singleton_False_L, size_empty
          by (apply _ || by rewrite Hm). lia.
    + intros x. rewrite !elem_of_filter, elem_of_singleton.
      intros [_ ->] [_ Hx]. done.
    + apply _.
Qed.

Lemma keywords_of_add_process (kw : pystr) (req : RecommendRequest) :
  keywords_of str_lower (add_process kw req)
  = {[kw]} ∪ keywords_of str_lower req.
Proof.
  unfold keywords_of, add_process. simpl. apply set_eq. intros x.
  rewrite !elem_of_union, elem_of_singleton. tauto.
Qed.

Lemma keywords_of_add_goal (kw : pystr) (req : RecommendRequest) :
  keywords_of str_lower (add_goal kw req)
  = {[kw]} ∪ keywords_of str_lower req.
Proof.
  unfold keywords_of, add_goal. simpl. apply set_eq. intros x.
  rewrite !elem_of_union, elem_of_singleton. tauto.
Qed.

Lemma request_score_add_process (kw : pystr) (req : RecommendRequest)
    (sol : Solution) :
  request_score str_lower (add_process kw req) sol
  = request_score str_lower req sol
    + (if bool_decide (kw ∉ keywords_of str_lower req)
          && str_truthy kw && str_in kw (haystack str_lower sol)
       then 2 else 0).
Proof.
  rewrite !request_score_parts. unfold base_score.
  rewrite keywords_of_add_process, kw_loop_one_more.
  unfold errors_bonus, time_bonus, low_bonus, add_process. simpl. lia.
Qed.

(** X10. One more process in the request changes the score of an entry by
    2 or not at all.  It adds 2 exactly when the string is not yet a
    keyword of the request, is not empty, and occurs in the haystack of the
    entry; so no score goes down. *)
Theorem extra_process_adds_two_or_nothing (kw : pystr)
    (req : RecommendRequest) (sol : Solution) :
  request_score str_lower (add_process kw req) sol
  = request_score str_lower req sol
    + (if bool_decide (kw ∉ keywords_of str_lower req)
          && str_truthy kw && str_in kw (haystack str_lower sol)
       then 2 else 0) /\
  request_score str_lower req sol
  <= request_score str_lower (add_process kw req) sol.
Proof.
  split; [apply request_score_add_process |].
  rewrite request_score_add_process.
  destruct (_ && _ && _); lia.
Qed.

(** X11. The empty string never scores, although it occurs in every
    haystack: with an empty string added to the goals or to the processes,
    every entry keeps its score and the recommendation is the same. *)
Theorem empty_keyword_never_scores (req : RecommendRequest) (st : store)
    (sol : Solution) :
  str_in [] (haystack str_lower sol) = true /\
  request_score str_lower (add_process [] req) sol
  = request_score str_lower req sol /\
  request_score str_lower (add_goal [] req) sol
  = request_score str_lower req sol /\
  recommend str_lower (add_process [] req) st = recommend str_lower req st /\
  recommend str_lower (add_goal [] req) st = recommend str_lower req st.
Proof.
  assert (Hp : forall sol', request_score str_lower (add_process [] req) sol'
                            = request_score str_lower req sol').
  { intros sol'.
    rewrite request_score_add_process.
    simpl. rewrite andb_false_r. simpl. lia. }
  assert (Hg : forall sol', request_score str_lower (add_goal [] req) sol'
                            = request_score str_lower req sol').
  { intros sol'. rewrite !request_score_parts. unfold base_score.
    rewrite keywords_of_add_goal, kw_loop_one_more.
    simpl. rewrite andb_false_r. simpl.
    unfold errors_bonus, time_bonus, low_bonus, add_goal. simpl.
    rewrite (bool_decide_ext (u "reduce_errors" ∈ [] :: goals req)
               (u "reduce_errors" ∈ goals req));
      [| rewrite elem_of_cons; split; [intros [H | H]; [discriminate H | done]
                                      | by right]].
    rewrite (bool_decide_ext (u "save_time" ∈ [] :: goals req)
               (u "save_time" ∈ goals req));
      [| rewrite elem_of_cons; split; [intros [H | H]; [discriminate H | done]
                                      | by right]].
    lia. }
  split; [by destruct (haystack str_lower sol) |].
  split; [apply Hp |]. split; [apply Hg |].
  split; by apply recommend_ext.
Qed.
End Keywords.

(** ** Team size, letter case and the range of a score *)

Section RequestFields.
Variable str_lower : pystr -> pystr.

(** X12. Of the team size only one thing matters: whether it is one of
    "solo", "small" and absent.  Two requests that differ in the team size
    alone, with both team sizes among these three or both outside them, give
    every entry the same score and get the same recommendation. *)
Theorem team_size_counts_by_class (ind t t' : option pystr)
    (g p : list pystr) (st : store) (sol : Solution) :
  (t ∈ ({[ Some (u "solo"); Some (u "small"); None ]} : gset (option pystr))
   <-> t' ∈ ({[ Some (u "solo"); Some (u "small"); None ]}
             : gset (option pystr))) ->
  request_score str_lower (mkRequest ind t g p) sol
  = request_score str_lower (mkRequest ind t' g p) sol /\
  recommend str_lower (mkRequest ind t g p) st
  = recommend str_lower (mkRequest ind t' g p) st.
Proof.
  intros Ht.
  assert (Hs : forall sol', request_score str_lower (mkRequest ind t g p) sol'
                 = request_score str_lower (mkRequest ind t' g p) sol').
  { intros sol'.
    unfold request_score, score, score_with, errors_bonus, time_bonus,
      low_bonus, keywords_of. simpl.
    by rewrite (bool_decide_ext _ _ Ht). }
  split; [apply Hs | by apply recommend_ext].
Qed.

Lemma lower_cp_not_capital (c : N) : is_capital (lower_cp c) = false.
Proof.
  unfold is_capital, lower_cp.
  destruct (N.leb_spec 65 c), (N.leb_spec c 90); simpl;
    repeat match goal with
           | |- context [N.leb ?a ?b] => destruct (N.leb_spec a b)
           end; simpl; try reflexivity; lia.
Qed.

Lemma str_in_elem (kw s : pystr) (c : N) :
  str_in kw s = true -> c ∈ kw -> c ∈ s.
Proof.
  intros (pre & post & ->)%str_in_spec Hc.
  rewrite !elem_of_app. auto.
Qed.

Lemma haystack_plain_no_capital (sol : Solution) (c : N) :
  c ∈ haystack plain_lower sol -> is_capital c = false.
Proof.
  unfold haystack, plain_lower.
  rewrite !elem_of_app, !list_elem_of_fmap.
  intros [(y & -> & _) | [Hsp | [(y & -> & _) | [Hsp | (y & -> & _)]]]];
    try apply lower_cp_not_capital.
  - change (u " ") with [32%N] in Hsp.
    apply list_elem_of_singleton in Hsp as ->. reflexivity.
  - change (u " ") with [32%N] in Hsp.
    apply list_elem_of_singleton in Hsp as ->. reflexivity.
Qed.

(** X13. Goals and processes are matched as they are written, against a
    haystack in lowercase: on an entry with plain texts, as all entries of
    the catalog are, a keyword from the goals or processes that contains an
    ASCII capital letter is found in no haystack and adds nothing. *)
Theorem capital_keyword_never_matches (kw : pystr) (c : N)
    (req : RecommendRequest) (sol : Solution) :
  lower_on_plain str_lower -> plain_solution sol = true ->
  c ∈ kw -> is_capital c = true ->
  str_in kw (haystack str_lower sol) = false /\
  request_score str_lower (add_process kw req) sol
  = request_score str_lower req sol.
Proof.
  intros Hl Hs Hc Hcap.
  assert (Hno : str_in kw (haystack str_lower sol) = false).
  { rewrite haystack_plain by done.
    destruct (str_in kw (haystack plain_lower sol)) eqn:Hin; [| done].
    pose proof (haystack_plain_no_capital sol c (str_in_elem _ _ _ Hin Hc)).
    congruence. }
  split; [exact Hno |].
  rewrite request_score_add_process.
  rewrite Hno, andb_false_r. lia.
Qed.

(** X14. The industry is matched without regard to ASCII letter case: two
    requests whose plain industries differ in the case of letters only, and
    in nothing else, get the same recommendation. *)
Theorem industry_case_insensitive (ind ind' : pystr) (t : option pystr)
    (g p : list pystr) (st : store) :
  lower_on_plain str_lower ->
  plain_str ind = true -> plain_str ind' = true ->
  plain_lower ind = plain_lower ind' ->
  recommend str_lower (mkRequest (Some ind) t g p) st
  = recommend str_lower (mkRequest (Some ind') t g p) st.
Proof.
  intros Hl Hi Hi' Heq. apply recommend_ext. intros sol.
  unfold request_score, score, score_with, errors_bonus, time_bonus,
    low_bonus, keywords_of. simpl.
  by rewrite (Hl _ Hi), (Hl _ Hi'), Heq.
Qed.

(** X15. A score is twice a number between 0 and the number of keywords
    plus 2, plus 1 when the Low-complexity bonus applies: it is odd exactly
    for a Low entry and a team size among "solo", "small" and absent. *)
Theorem request_score_shape (req : RecommendRequest) (sol : Solution) :
  exists m,
    0 <= m <= Z.of_nat (size (keywords_of str_lower req)) + 2 /\
    request_score str_lower req sol
    = 2 * m + (if low_bonus req sol then 1 else 0) /\
    (Z.odd (request_score str_lower req sol) = low_bonus req sol).
Proof.
  rewrite request_score_parts. unfold base_score. rewrite kw_loop_size.
  set (P := fun kw => str_truthy kw && str_in kw (haystack str_lower sol) = true).
  assert (Hle : (size (filter P (keywords_of str_lower req))
                 <= size (keywords_of str_lower req))%nat).
  { apply subseteq_size. intros kw. rewrite elem_of_filter. tauto. }
  set (m := Z.of_nat (size (filter P (keywords_of str_lower req)))
            + (if errors_bonus req (haystack str_lower sol) then 1 else 0)
            + (if time_bonus req (haystack str_lower sol) then 1 else 0)).
  assert (Heq : 2 * Z.of_nat (size (filter P (keywords_of str_lower req)))
                + (if errors_bonus req (haystack str_lower sol) then 2 else 0)
                + (if time_bonus req (haystack str_lower sol) then 2 else 0)
                + (if low_bonus req sol then 1 else 0)
                = 2 * m + (if low_bonus req sol then 1 else 0)).
  { subst m. destruct (errors_bonus _ _), (time_bonus _ _); lia. }
  exists m. split.
  { subst m. destruct (errors_bonus _ _), (time_bonus _ _); lia. }
  split; [exact Heq |].
  rewrite Heq, Z.add_comm, Z.odd_add_mul_2. by destruct (low_bonus req sol).
Qed.
End RequestFields.

(** ** Concrete runs of the properties with a hypothesis *)

Lemma recommend_top_is_first_best_witness :
  recommend plain_lower retail_request initial_store
  = (Ok (lead_capture_crm :: [marketing_drip; ops_dashboard]), initial_store)
  /\ exists before after,
       catalog initial_store = before ++ lead_capture_crm :: after /\
       Forall (fun sol => request_score plain_lower retail_request sol
                          < request_score plain_lower retail_request
                              lead_capture_crm) before /\
       Forall (fun sol => request_score plain_lower retail_request sol
                          <= request_score plain_lower retail_request
                               lead_capture_crm) after.
Proof.
  assert (Hrun : recommend plain_lower retail_request initial_store
                 = (Ok (lead_capture_crm :: [marketing_drip; ops_dashboard]),
                    initial_store))
    by (vm_compute; reflexivity).
  split; [exact Hrun |].
  exact (recommend_top_is_first_best plain_lower retail_request initial_store
           lead_capture_crm [marketing_drip; ops_dashboard] Hrun).
Defined.

Lemma recommend_ignores_order_and_repeats_witness :
  recommend plain_lower
    (mkRequest None None [u "lead"; u "crm"; u "lead"] [u "email"])
    initial_store
  = recommend plain_lower
      (mkRequest None None [u "crm"; u "lead"] [u "email"; u "email"])
      initial_store.
Proof.
  apply (recommend_ignores_order_and_repeats plain_lower
           (mkRequest None None [u "lead"; u "crm"; u "lead"] [u "email"])
           (mkRequest None None [u "crm"; u "lead"] [u "email"; u "email"])
           initial_store lead_capture_crm).
  - reflexivity.
  - reflexivity.
  - intros kw. simpl. rewrite !elem_of_cons, elem_of_nil. tauto.
  - intros kw. simpl. rewrite !elem_of_cons, elem_of_nil. tauto.
Defined.

Lemma team_size_counts_by_class_witness :
  recommend plain_lower (mkRequest None (Some (u "solo")) [] []) initial_store
  = recommend plain_lower (mkRequest None None [] []) initial_store.
Proof.
  apply (team_size_counts_by_class plain_lower None (Some (u "solo")) None
           [] [] initial_store lead_capture_crm).
  rewrite !elem_of_union, !elem_of_singleton. split; intros _; auto.
Defined.

Lemma capital_keyword_never_matches_witness :
  str_in (u "crm") (haystack plain_lower lead_capture_crm) = true /\
  str_in (u "CRM") (haystack plain_lower lead_capture_crm) = false /\
  request_score plain_lower (add_process (u "CRM") empty_request)
    lead_capture_crm
  = request_score plain_lower empty_request lead_capture_crm.
Proof.
  split; [vm_compute; reflexivity |].
  apply (capital_keyword_never_matches plain_lower (u "CRM") 67%N
           empty_request lead_capture_crm).
  - apply plain_lower_on_plain.
  - vm_compute. reflexivity.
  - vm_compute. apply list_elem_of_here.
  - reflexivity.
Defined.

Lemma industry_case_insensitive_witness :
  recommend plain_lower
    (mkRequest (Some (u "Retail CRM")) None [] []) initial_store
  = recommend plain_lower
      (mkRequest (Some (u "retail crm")) None [] []) initial_store.
Proof.
  apply (industry_case_insensitive plain_lower (u "Retail CRM")
           (u "retail crm") None [] [] initial_store).
  - apply plain_lower_on_plain.
  - vm_compute. reflexivity.
  - vm_compute. reflexivity.
  - vm_compute. reflexivity.
Defined.

(** C10 does not hold as stated for "tempo": the word is not confined to
    the impact texts, it occurs in none of them either. *)
Lemma tempo_occurs_in_no_impact :
  ~ (exists sol,
       sol ∈ CATALOG /\ str_in (u "tempo") (plain_lower (impact sol)) = true).
Proof.
  intros (sol & Hsol & Hin). revert Hin. pattern sol. revert sol Hsol.
  apply catalog_cases; vm_compute; discriminate.
Qed.
